(** * KosmosX-API: the HTTP gateway of [api.py]

    A shallow embedding of the request handlers of [api.py] (token
    counting, API-key authentication, registration, key rotation, account
    deletion, checkout and the rate-limited completion endpoint) together
    with the properties stated about them.

    Conventions.
    - Python [str] is [string]; the separator of [split] is the single
      ASCII space, which never occurs inside a multi-byte UTF-8 sequence,
      so splitting the byte string and splitting the text agree.
    - A handler either returns a value or raises; [Outcome] records which.
    - The external collaborators (bcrypt, PIL, the model wrapper, Stripe,
      the usage helpers) are interfaces, given as type classes; the values
      drawn by [uuid.uuid4()] and [bcrypt.gensalt()] are arguments.
    - The Credential Store is the list of its rows with a log of the
      mutating requests it received; the handlers thread it through a
      small state-and-exception monad.
    - The rate limiter keeps the requests it let through, with the second
      in which each arrived. *)

From Stdlib Require Import String Ascii List Bool Arith Lia.
Import ListNotations.
Open Scope string_scope.
Open Scope nat_scope.

(** ** Python strings *)

(** [s.split(sep)] for a separator of one character: the pieces between
    consecutive separators, empty pieces included. *)
Fixpoint split (sep : ascii) (s : string) : list string :=
  match s with
  | EmptyString => [EmptyString]
  | String c rest =>
      if Ascii.eqb c sep then EmptyString :: split sep rest
      else match split sep rest with
           | [] => [String c EmptyString]
           | w :: ws => String c w :: ws
           end
  end.

(** Number of occurrences of a character. *)
Fixpoint count_char (c : ascii) (s : string) : nat :=
  match s with
  | EmptyString => 0
  | String d rest => (if Ascii.eqb d c then 1 else 0) + count_char c rest
  end.

(** [async def count_tokens(text): return len(text.split(" "))] *)
Definition count_tokens (text : string) : nat :=
  length (split " "%char text).

(** *** The wording of the specification, for comparison *)

(** [str.isspace] on one ASCII character: tab, line feed, vertical tab,
    form feed, carriage return, the four separators 28..31 and space. *)
Definition isspace (c : ascii) : bool :=
  let n := nat_of_ascii c in
  ((9 <=? n) && (n <=? 13)) || ((28 <=? n) && (n <=? 32)).

(** Pieces delimited by any whitespace character, empty pieces kept. *)
Fixpoint whitespace_fields (s : string) : list string :=
  match s with
  | EmptyString => [EmptyString]
  | String c rest =>
      if isspace c then EmptyString :: whitespace_fields rest
      else match whitespace_fields rest with
           | [] => [String c EmptyString]
           | w :: ws => String c w :: ws
           end
  end.

Definition nonempty (s : string) : bool :=
  match s with EmptyString => false | _ => true end.

(** Whitespace-delimited words in the usual sense ([text.split()]). *)
Definition whitespace_words (s : string) : list string :=
  filter nonempty (whitespace_fields s).

(** The text [a<TAB>b]. *)
Definition tabbed_text : string :=
  String "a" (String "009" (String "b" EmptyString)).

(** [bool(s)] for a string: empty strings are falsy. *)
Definition truthy (s : string) : bool :=
  match s with EmptyString => false | _ => true end.

(** ** Exceptions, outcomes and responses *)

(** A Python exception raised by a library call; only [str(e)] is ever
    observed by the handlers. *)
Record Exception := mkException { str : string }.

(** The result of a call into an external library. *)
Inductive Result (A : Type) : Type :=
| Ok (a : A)
| Err (e : Exception).
Arguments Ok {A} a.
Arguments Err {A} e.

(** What leaves a handler other than a returned value. *)
Inductive Raised : Type :=
| HTTPException (status_code : nat) (detail : string)
| RateLimitExceeded (detail : string)
| Uncaught (e : Exception).

Inductive Outcome (A : Type) : Type :=
| Return (a : A)
| Raise (r : Raised).
Arguments Return {A} a.
Arguments Raise {A} r.

(** The JSON values the handlers return: strings and dictionaries. *)
#[warnings="-register-all"]
Inductive Json : Type :=
| JString (s : string)
| JDict (items : list (string * Json)).

Record Response := { status : nat; content : Json }.

(** Modelled from the spec: how the web framework (not part of the
    repository) turns an outcome into an HTTP response. A returned value is
    a 200 body; [HTTPException(s, d)] is status [s] with body
    [{"detail": d}]; [RateLimitExceeded] is answered 429 by the handler
    registered with [app.add_exception_handler]; any other exception is a
    500. *)
Definition respond (o : Outcome Json) : Response :=
  match o with
  | Return v => {| status := 200; content := v |}
  | Raise (HTTPException s d) =>
      {| status := s; content := JDict [("detail", JString d)] |}
  | Raise (RateLimitExceeded d) =>
      {| status := 429;
         content := JDict [("error", JString ("Rate limit exceeded: " ++ d))] |}
  | Raise (Uncaught _) =>
      {| status := 500; content := JString "Internal Server Error" |}
  end.

(** ** The Credential Store: the [users] table behind [supabase] *)

Record User := { username : string; password : string; api_key : string }.

Inductive Column : Type := col_username | col_password | col_api_key.

Definition field (c : Column) (u : User) : string :=
  match c with
  | col_username => username u
  | col_password => password u
  | col_api_key => api_key u
  end.

(** The mutating requests the gateway sends to the store. *)
Inductive Write : Type :=
| Insert (row : User)
| Update (new_api_key : string) (eq_username : string)
| Delete (eq_username : string).

(** Modelled from the spec: the Credential Store, "a keyed table of users,
    each with a hashed secret and an API key, queried/mutated via a network
    call" (the supabase client is not part of the repository): the rows in
    insertion order, and the log of the mutating requests received. *)
Record Store := { users : list User; issued : list Write }.

(** Modelled from the spec: the store's filter [.eq(col, v)], the rows
    whose column [col] equals [v]. *)
Definition eq_filter (col : Column) (v : string) (rows : list User) : list User :=
  filter (fun u => String.eqb (field col u) v) rows.

(** Modelled from the spec: the store's [.single()] followed by
    [.get('data', None)], the row when the filter selects exactly one and
    [None] otherwise. Under the invariant of the data model (an api_key, and
    a username, identifies at most one user) a filter on either column
    selects no row or one, so the answer for several rows is never used by
    the properties that assume the invariant. *)
Definition single (rows : list User) : option User :=
  match rows with
  | [u] => Some u
  | _ => None
  end.

(** Modelled from the spec: the store's
    [.update({'api_key': k}).eq('username', who)], "replaces api_key" in
    the rows of [who]. *)
Definition update_rows (k who : string) (rows : list User) : list User :=
  map (fun u =>
         if String.eqb (username u) who
         then {| username := username u; password := password u; api_key := k |}
         else u) rows.

(** Modelled from the spec: the store's [.delete().eq('username', who)],
    "record deleted on account deletion". *)
Definition delete_rows (who : string) (rows : list User) : list User :=
  filter (fun u => negb (String.eqb (username u) who)) rows.

(** *** Handlers thread the store and may raise *)

Definition M (A : Type) : Type := Store -> Outcome A * Store.

Definition ret {A : Type} (a : A) : M A := fun st => (Return a, st).

Definition raise {A : Type} (r : Raised) : M A := fun st => (Raise r, st).

Definition bind {A B : Type} (m : M A) (k : A -> M B) : M B :=
  fun st =>
    match m st with
    | (Return a, st') => k a st'
    | (Raise r, st') => (Raise r, st')
    end.

Declare Scope store_scope.
Delimit Scope store_scope with store.
Notation "x <- m ;; k" := (bind m (fun x => k))
  (at level 100, m at next level, right associativity) : store_scope.
Notation "m ;;; k" := (bind m (fun _ => k))
  (at level 100, right associativity) : store_scope.
Open Scope store_scope.

(** [supabase.table('users').select(..).eq(col, v).single().get('data', None)] *)
Definition select_eq_single (col : Column) (v : string) : M (option User) :=
  fun st => (Return (single (eq_filter col v (users st))), st).

(** [supabase.table('users').insert(row).execute()] *)
Definition insert (row : User) : M unit :=
  fun st => (Return tt, {| users := users st ++ [row];
                           issued := issued st ++ [Insert row] |}).

(** [supabase.table('users').update({'api_key': k}).eq('username', who).execute()] *)
Definition update_api_key (k who : string) : M unit :=
  fun st => (Return tt, {| users := update_rows k who (users st);
                           issued := issued st ++ [Update k who] |}).

(** [supabase.table('users').delete().eq('username', who).execute()] *)
Definition delete (who : string) : M unit :=
  fun st => (Return tt, {| users := delete_rows who (users st);
                           issued := issued st ++ [Delete who] |}).

(** The keys currently stored, and the store invariant of the data model:
    an api_key identifies at most one user. *)
Definition stored_keys (st : Store) : list string := map api_key (users st).

Definition unique_api_keys (st : Store) : Prop := NoDup (stored_keys st).

(** ** Authentication *)

(** [APIKeyHeader(name="x-api-key", auto_error=True)]: the header value,
    or 403 when the header is missing. *)
Definition api_key_header (header : option string) : M string :=
  match header with
  | Some v => ret v
  | None => raise (HTTPException 403 "Not authenticated")
  end.

(** [get_api_key]: look the presented key up; the row itself is only
    tested against [None]. *)
Definition get_api_key (api_key_header : string) : M string :=
  user <- select_eq_single col_api_key api_key_header ;;
  match user with
  | None => raise (HTTPException 403 "Invalid API Key")
  | Some _ => ret api_key_header
  end.

(** ** Accounts *)

(** [bcrypt]: [hashpw(password, salt)] and [checkpw(password, hashed)]. *)
Class Bcrypt : Type := {
  hashpw : string -> string -> string;
  checkpw : string -> string -> bool
}.

Section Accounts.
Context {bcrypt : Bcrypt}.

(** [register]; [salt] is the value drawn by [bcrypt.gensalt()] and
    [uuid4] the one drawn by [uuid.uuid4()]. *)
Definition register (username password : string) (salt uuid4 : string) : M Json :=
  let hashed_password := hashpw password salt in
  let api_key := uuid4 in
  insert {| username := username; password := hashed_password;
            api_key := api_key |} ;;;
  ret (JDict [("api_key", JString api_key)]).

(** [rotate_api_key]; [uuid4] is the value drawn by [uuid.uuid4()]. *)
Definition rotate_api_key (username password : string) (uuid4 : string) : M Json :=
  user <- select_eq_single col_username username ;;
  match user with
  | Some user =>
      if checkpw password (field col_password user) then
        let new_api_key := uuid4 in
        update_api_key new_api_key username ;;;
        ret (JDict [("api_key", JString new_api_key)])
      else raise (HTTPException 403 "Invalid username or password")
  | None => raise (HTTPException 403 "Invalid username or password")
  end.

(** [delete_account] *)
Definition delete_account (username password : string) : M Json :=
  user <- select_eq_single col_username username ;;
  match user with
  | Some user =>
      if checkpw password (field col_password user) then
        delete username ;;;
        ret (JDict [("detail", JString "Account deleted")])
      else raise (HTTPException 403 "Invalid username or password")
  | None => raise (HTTPException 403 "Invalid username or password")
  end.
End Accounts.

(** ** Completion *)

(** An uploaded file; [await image.read()] yields its bytes. *)
Record UploadFile := { read : string }.

Section Completion.
Context {PyFloat Image : Type}.

(** [class Query(BaseModel)] *)
Record Query := {
  text : option string;
  description_type : option string;
  enable_sampling : option bool;
  sampling_topp : option PyFloat;
  sampling_temperature : option PyFloat
}.

(** The keyword arguments of [model.get_response]. *)
Record ModelArgs := {
  arg_text : option string;
  arg_description_type : option string;
  arg_enable_sampling : option bool;
  arg_sampling_topp : option PyFloat;
  arg_sampling_temperature : option PyFloat;
  arg_image : option Image
}.

(** [PIL.Image.open(io.BytesIO(data))] and [ModelWrapper.get_response]. *)
Class ModelWrapper : Type := {
  Image_open : string -> Result Image;
  get_response : ModelArgs -> Result string
}.

Context {model : ModelWrapper}.

(** [image_data]: [None] without an upload, the decoded image otherwise. *)
Definition read_image (image : option UploadFile) : Result (option Image) :=
  match image with
  | None => Ok None
  | Some f =>
      match Image_open (read f) with
      | Ok img => Ok (Some img)
      | Err e => Err e
      end
  end.

(** [text_data = query.text if query.text else None] *)
Definition text_data (query : Query) : option string :=
  match text query with
  | Some s => if truthy s then Some s else None
  | None => None
  end.

(** What [completion] passes to the model once the image is decoded. *)
Definition completion_args (query : Query) (image_data : option Image) : ModelArgs :=
  {| arg_text := text_data query;
     arg_description_type := description_type query;
     arg_enable_sampling := enable_sampling query;
     arg_sampling_topp := sampling_topp query;
     arg_sampling_temperature := sampling_temperature query;
     arg_image := image_data |}.

(** The body of the [try] block. *)
Definition completion_try (query : Query) (image : option UploadFile) : Result Json :=
  match read_image image with
  | Err e => Err e
  | Ok image_data =>
      match get_response (completion_args query image_data) with
      | Err e => Err e
      | Ok response => Ok (JDict [("response", JString response)])
      end
  end.

(** [completion]: [except Exception as e: raise HTTPException(500, str(e))].
    The [api_key] argument has already been produced by [get_api_key];
    the call to [logger.error] leaves no trace in the response and is
    left out. *)
Definition completion (query : Query) (image : option UploadFile)
    (api_key : string) : Outcome Json :=
  match completion_try query image with
  | Ok v => Return v
  | Err e => Raise (HTTPException 500 (str e))
  end.
End Completion.
Arguments Query : clear implicits.
Arguments ModelArgs : clear implicits.
Arguments ModelWrapper : clear implicits.

(** ** Checkout *)

(** The arguments [create_checkout_session] gives to
    [stripe.checkout.Session.create]. *)
Record SessionParams := {
  payment_method_types : list string;
  currency : string;
  product_name : string;
  unit_amount : nat;
  quantity : nat;
  mode : string;
  success_url : string;
  cancel_url : string
}.

Record CheckoutSession := { id : string }.

Section Checkout.
Context {Usage : Type}.

(** The two helpers the source leaves to be implemented, and Stripe. *)
Class Billing : Type := {
  get_usage_from_database : string -> Result Usage;
  calculate_cost : Usage -> Result nat;
  Session_create : SessionParams -> Result CheckoutSession
}.

Context {billing : Billing}.

Definition checkout_params (cost : nat) : SessionParams :=
  {| payment_method_types := ["card"];
     currency := "usd";
     product_name := "Tokens & Images";
     unit_amount := cost;
     quantity := 1;
     mode := "payment";
     success_url := "https://your-website.com/success";
     cancel_url := "https://your-website.com/cancel" |}.

(** [create_checkout_session]: the two helper calls sit outside the
    [try], the Stripe call inside it. *)
Definition create_checkout_session (user_id : string) : Outcome Json :=
  match get_usage_from_database user_id with
  | Err e => Raise (Uncaught e)
  | Ok usage =>
      match calculate_cost usage with
      | Err e => Raise (Uncaught e)
      | Ok cost =>
          match Session_create (checkout_params cost) with
          | Ok checkout_session =>
              Return (JDict [("id", JString (id checkout_session))])
          | Err e => Return (JString (str e))
          end
      end
  end.
End Checkout.
Arguments Billing : clear implicits.

(** ** Rate limiting *)

(** One remembered request: the limiter key (the client address, by
    [key_func=get_remote_address]) and the second it arrived in. *)
Record Hit := { hit_key : string; hit_time : nat }.

(** Modelled from the spec: the window test of the limiter behind
    [Limiter(key_func=get_remote_address)] and [limiter.limit], whose
    package is not part of the repository. "Keyed by client network
    address, allows at most N requests per rolling time window (N=5/minute
    by default)." Clock readings are whole seconds; a remembered request
    counts for [key] at [now] when it has that key and arrived less than
    [period] seconds before [now]. *)
Definition in_window (period : nat) (key : string) (now : nat) (h : Hit) : bool :=
  String.eqb (hit_key h) key && (now <? hit_time h + period).

(** Modelled from the spec: the number of remembered requests of [key]
    in the rolling window that ends at [now]. *)
Definition window_count (period : nat) (key : string) (now : nat)
    (hits : list Hit) : nat :=
  length (filter (in_window period key now) hits).

(** Modelled from the spec: the limiter's decision. "Requests beyond the
    limit fail fast with a rate-limit error before reaching the Router
    logic": a request is let through, and remembered, when fewer than
    [amount] remembered requests of its key are in the window; otherwise
    [RateLimitExceeded] is raised and nothing is remembered. *)
Definition limit (amount period : nat) (key : string) (now : nat)
    (hits : list Hit) : Outcome unit * list Hit :=
  if window_count period key now hits <? amount
  then (Return tt, {| hit_key := key; hit_time := now |} :: hits)
  else (Raise (RateLimitExceeded "5 per 1 minute"), hits).

(** ** The [/completion] route *)

(** The process: the store it talks to and the limiter's memory. *)
Record Server := { store : Store; hits : list Hit }.

Section Route.
Context {PyFloat Image : Type} {model : ModelWrapper PyFloat Image}.

(** One request to [POST /completion]: the client address, the second
    of arrival, the [x-api-key] header, the JSON body and the upload. *)
Record Request := {
  client_host : string;
  arrival : nat;
  x_api_key : option string;
  query : Query PyFloat;
  image : option UploadFile
}.

(** [@app.post("/completion")] over [@limiter.limit("5/minute")] over
    [completion]: the dependency [api_key = Depends(get_api_key)] is
    resolved first, then the decorated function is called: the limiter
    wrapper runs, and only then the body of [completion]. *)
Definition post_completion (req : Request) (srv : Server) : Response * Server :=
  match (key <- api_key_header (x_api_key req) ;; get_api_key key) (store srv) with
  | (Raise r, st) => (respond (Raise r), {| store := st; hits := hits srv |})
  | (Return api_key, st) =>
      match limit 5 60 (client_host req) (arrival req) (hits srv) with
      | (Raise r, hs) => (respond (Raise r), {| store := st; hits := hs |})
      | (Return _, hs) =>
          (respond (completion (query req) (image req) api_key),
           {| store := st; hits := hs |})
      end
  end.

(** The requests of a run, answered one after the other. *)
Fixpoint serve (reqs : list Request) (srv : Server) : list Response * Server :=
  match reqs with
  | [] => ([], srv)
  | req :: rest =>
      let (resp, srv') := post_completion req srv in
      let (resps, srv'') := serve rest srv' in
      (resp :: resps, srv'')
  end.

(** A response produced by the body of [completion]: 200 or 500. *)
Definition handled (resp : Response) : bool :=
  (status resp =? 200) || (status resp =? 500).


(** The requests of a run from address [a], arrived less than 60
    seconds before [now], that got to the body of [completion]. *)
Definition handled_before (a : string) (now : nat)
    (run : list (Request * Response)) : list (Request * Response) :=
  filter (fun qr => String.eqb (client_host (fst qr)) a
                    && (now <? arrival (fst qr) + 60)
                    && handled (snd qr)) run.

End Route.
Arguments Request : clear implicits.

(** A request that does not authenticate: no [x-api-key] header, or a key
    no stored user has. *)
Definition unauthenticated {PyFloat : Type} (srv : Server)
    (req : Request PyFloat) : Prop :=
  match x_api_key req with
  | None => True
  | Some key => ~ In key (stored_keys (store srv))
  end.

(** ** A small deployment, used to run the handlers on concrete inputs *)

(** A toy [bcrypt]: the hash is the two-character salt followed by the
    password; checking re-hashes with the salt read off the stored hash. *)
#[export] Instance toy_bcrypt : Bcrypt := {|
  hashpw := fun password salt => salt ++ password;
  checkpw := fun password hashed =>
    String.eqb (substring 0 2 hashed ++ password) hashed
|}.

Definition alice : User :=
  {| username := "alice"; password := "s1pw1"; api_key := "key-alice" |}.

Definition bob : User :=
  {| username := "bob"; password := "s2pw2"; api_key := "key-bob" |}.

Definition two_users : Store := {| users := [alice; bob]; issued := [] |}.

(** A toy model: images are their byte counts, empty uploads do not
    decode, and the model needs a prompt. *)
#[export] Instance toy_model : ModelWrapper nat nat := {|
  Image_open := fun data =>
    match data with
    | EmptyString => Err (mkException "cannot identify image file")
    | _ => Ok (String.length data)
    end;
  get_response := fun args =>
    match arg_text args with
    | Some t => Ok ("echo: " ++ t)
    | None => Err (mkException "no prompt")
    end
|}.

Definition ask (t : option string) : Query nat :=
  {| text := t; description_type := None; enable_sampling := None;
     sampling_topp := None; sampling_temperature := None |}.

(** A toy billing back end: usage is the length of the user id, a cost of
    zero is refused by the payment provider. *)
#[export] Instance toy_billing : Billing nat := {|
  get_usage_from_database := fun user_id => Ok (String.length user_id);
  calculate_cost := fun usage => Ok (2 * usage);
  Session_create := fun params =>
    match unit_amount params with
    | 0 => Err (mkException "Invalid positive integer")
    | _ => Ok {| id := "cs_test_1" |}
    end
|}.

Definition fresh_server : Server := {| store := two_users; hits := [] |}.

Definition from_client (at_time : nat) (key : string) (t : option string)
    : Request nat :=
  {| client_host := "10.0.0.1"; arrival := at_time; x_api_key := Some key;
     query := ask t; image := None |}.

(** Five requests with alice's key in the first five seconds. *)
Definition five_requests : list (Request nat) :=
  map (fun t => from_client t "key-alice" (Some "hi")) [0; 1; 2; 3; 4].



(** The store after alice rotated her key. *)
Definition rotated : Store :=
  snd (rotate_api_key "alice" "pw1" "key-new" two_users).

Definition six_unknown : list (Request nat) :=
  map (fun t => from_client t "no-such-key" (Some "hi")) [0; 1; 2; 3; 4; 5].


Definition without_bob : Store :=
  snd (delete_account "bob" "pw2" two_users).

(** A billing back end whose usage lookup is down. *)
Definition billing_down : Billing nat := {|
  get_usage_from_database := fun _ => Err (mkException "usage table unreachable");
  calculate_cost := fun usage => Ok (2 * usage);
  Session_create := fun _ => Ok {| id := "cs_test_1" |}
|}.

(** A request from another address, and a run mixing the two addresses
    with an early request of the first. *)
Definition from_other (at_time : nat) : Request nat :=
  {| client_host := "10.0.0.2"; arrival := at_time; x_api_key := Some "key-bob";
     query := ask (Some "hi"); image := None |}.

Definition mixed_run : list (Request nat) :=
  (five_requests ++ map from_other [60; 61; 62; 63; 64; 65])%list.

Definition after_a_minute : Request nat := from_client 70 "key-alice" (Some "hi").

(** * Properties *)

(** ** Token counting *)

Lemma split_length (sep : ascii) (s : string) :
  length (split sep s) = S (count_char sep s).
Proof.
  induction s as [|c rest IH]; simpl; [reflexivity|].
  destruct (Ascii.eqb c sep); simpl.
  - now rewrite IH.
  - destruct (split sep rest) as [|w ws]; simpl in *; [discriminate|exact IH].
Qed.

Lemma split_concat (sep : ascii) (s : string) :
  String.concat (String sep EmptyString) (split sep s) = s.
Proof.
  induction s as [|c rest IH]; simpl; [reflexivity|].
  destruct (Ascii.eqb c sep) eqn:E.
  - apply Ascii.eqb_eq in E; subst c.
    pose proof (split_length sep rest) as L.
    destruct (split sep rest) as [|w ws]; [discriminate|].
    rewrite <- IH. reflexivity.
  - pose proof (split_length sep rest) as L.
    destruct (split sep rest) as [|w ws]; [discriminate|].
    rewrite <- IH. destruct ws; reflexivity.
Qed.

Lemma split_pieces_clean (sep : ascii) (s w : string) :
  In w (split sep s) -> count_char sep w = 0.
Proof.
  revert w; induction s as [|c rest IH]; simpl; intros w H.
  - destruct H as [<-|[]]. reflexivity.
  - destruct (Ascii.eqb c sep) eqn:E.
    + destruct H as [<-|H]; [reflexivity|auto].
    + destruct (split sep rest) as [|v vs].
      * destruct H as [<-|[]]. simpl. now rewrite E.
      * destruct H as [<-|H].
        -- simpl. rewrite E. apply IH. now left.
        -- apply IH. now right.
Qed.

(** C6 (as amended). [count_tokens text] is the number of pieces of
    [text] delimited by the single space character, empty pieces
    included: one more than the number of spaces; the pieces contain no
    space and joined by a space they give [text] back. In particular
    [count_tokens "a b c" = 3] and [count_tokens "" = 1]. *)
Theorem count_tokens_space_separated :
  (forall text, count_tokens text = S (count_char " " text)) /\
  (forall text, String.concat " " (split " " text) = text) /\
  (forall text w, In w (split " " text) -> count_char " " w = 0) /\
  count_tokens "a b c" = 3 /\
  count_tokens "" = 1.
Proof.
  repeat split.
  - intro text. apply split_length.
  - intro text. apply split_concat.
  - intros text w. apply split_pieces_clean.
Qed.

(** C6 (as stated) fails on a text whose two words are separated by a
    tab: it has two whitespace-delimited words, whichever way empty
    pieces are treated, and [count_tokens] answers 1. *)
Lemma count_tokens_tab_counterexample :
  count_tokens tabbed_text = 1 /\
  length (whitespace_words tabbed_text) = 2 /\
  length (whitespace_fields tabbed_text) = 2 /\
  count_tokens tabbed_text <> length (whitespace_words tabbed_text).
Proof. repeat split; vm_compute; discriminate. Qed.

(** ** Looking a key up *)

Lemma eq_filter_absent (key : string) (rows : list User) :
  ~ In key (map api_key rows) -> eq_filter col_api_key key rows = [].
Proof.
  induction rows as [|u rows IH]; simpl; intro H; [reflexivity|].
  destruct (String.eqb (api_key u) key) eqn:E.
  - apply String.eqb_eq in E. tauto.
  - apply IH. tauto.
Qed.

Lemma eq_filter_unique (key : string) (rows : list User) :
  NoDup (map api_key rows) -> In key (map api_key rows) ->
  exists u, eq_filter col_api_key key rows = [u] /\ In u rows /\ api_key u = key.
Proof.
  induction rows as [|u rows IH]; simpl; intros ND H; [contradiction|].
  inversion ND as [|k ks Hnotin ND']; subst.
  destruct (String.eqb (api_key u) key) eqn:E.
  - apply String.eqb_eq in E. subst key.
    exists u. rewrite (eq_filter_absent _ _ Hnotin). auto.
  - apply String.eqb_neq in E. destruct H as [H|H]; [contradiction|].
    destruct (IH ND' H) as (v & Hv & Hin & Hk). exists v. auto.
Qed.

Lemma get_api_key_found (key : string) (st : Store) (u : User) :
  eq_filter col_api_key key (users st) = [u] ->
  get_api_key key st = (Return key, st).
Proof.
  intro H. unfold get_api_key, bind, select_eq_single. now rewrite H.
Qed.

Lemma get_api_key_not_found (key : string) (st : Store) :
  eq_filter col_api_key key (users st) = [] ->
  get_api_key key st = (Raise (HTTPException 403 "Invalid API Key"), st).
Proof.
  intro H. unfold get_api_key, bind, select_eq_single. now rewrite H.
Qed.

(** C1. [get_api_key] returns a presented key unchanged when it is stored,
    in a store whose api_keys identify at most one user each, and fails
    with HTTP status 403 when it is not stored; the store is not touched. *)
Theorem get_api_key_present_or_403 (st : Store) (key : string) :
  (unique_api_keys st -> In key (stored_keys st) ->
   get_api_key key st = (Return key, st)) /\
  (~ In key (stored_keys st) ->
   get_api_key key st = (Raise (HTTPException 403 "Invalid API Key"), st) /\
   status (respond (Raise (HTTPException 403 "Invalid API Key"))) = 403).
Proof.
  split.
  - intros ND H. destruct (eq_filter_unique key (users st) ND H) as (u & Hu & _).
    eapply get_api_key_found; eauto.
  - intro H. split; [|reflexivity].
    apply get_api_key_not_found, eq_filter_absent, H.
Qed.

Lemma get_api_key_present_or_403_witness :
  unique_api_keys two_users /\
  get_api_key "key-bob" two_users = (Return "key-bob", two_users) /\
  get_api_key "key-eve" two_users
  = (Raise (HTTPException 403 "Invalid API Key"), two_users).
Proof.
  assert (ND : unique_api_keys two_users).
  { unfold unique_api_keys. vm_compute.
    repeat constructor; simpl; intuition discriminate. }
  destruct (get_api_key_present_or_403 two_users "key-bob") as [Hp _].
  destruct (get_api_key_present_or_403 two_users "key-eve") as [_ Ha].
  split; [exact ND|]. split.
  - apply Hp; [exact ND|]. vm_compute. tauto.
  - apply Ha. vm_compute. intuition discriminate.
Defined.

(** ** The route authenticates before anything else *)

Section RouteAuth.
Context {PyFloat Image : Type} {model : ModelWrapper PyFloat Image}.

Lemma post_completion_rejected (req : Request PyFloat) (srv : Server)
    (key detail : string) :
  x_api_key req = Some key ->
  get_api_key key (store srv) = (Raise (HTTPException 403 detail), store srv) ->
  post_completion req srv = (respond (Raise (HTTPException 403 detail)), srv).
Proof.
  intros Hk Hg. unfold post_completion, bind. rewrite Hk. simpl.
  rewrite Hg. destruct srv; reflexivity.
Qed.

Lemma post_completion_accepted (req : Request PyFloat) (srv : Server)
    (key : string) :
  x_api_key req = Some key ->
  get_api_key key (store srv) = (Return key, store srv) ->
  post_completion req srv
  = match limit 5 60 (client_host req) (arrival req) (hits srv) with
    | (Raise r, hs) => (respond (Raise r), {| store := store srv; hits := hs |})
    | (Return _, hs) =>
        (respond (completion (query req) (image req) key),
         {| store := store srv; hits := hs |})
    end.
Proof.
  intros Hk Hg. unfold post_completion, bind. rewrite Hk. simpl.
  rewrite Hg. reflexivity.
Qed.

Lemma post_completion_accepted_status (req : Request PyFloat) (srv : Server)
    (key : string) :
  x_api_key req = Some key ->
  get_api_key key (store srv) = (Return key, store srv) ->
  status (fst (post_completion req srv)) <> 403.
Proof.
  intros Hk Hg. rewrite (post_completion_accepted req srv key Hk Hg).
  unfold limit. destruct (window_count _ _ _ _ <? 5); simpl; [|discriminate].
  unfold completion. destruct (completion_try _ _); simpl; discriminate.
Qed.
End RouteAuth.

(** ** Accounts *)

Lemma NoDup_map_inj {A B : Type} (f : A -> B) (l : list A) (x y : A) :
  NoDup (map f l) -> In x l -> In y l -> f x = f y -> x = y.
Proof.
  induction l as [|a l IH]; simpl; intros ND Hx Hy E; [contradiction|].
  inversion ND as [|b bs Hnotin ND']; subst.
  destruct Hx as [<-|Hx], Hy as [<-|Hy]; auto.
  - exfalso. apply Hnotin. rewrite E. now apply in_map.
  - exfalso. apply Hnotin. rewrite <- E. now apply in_map.
Qed.

Lemma single_Some (rows : list User) (u : User) :
  single rows = Some u -> rows = [u].
Proof.
  destruct rows as [|a [|b rows]]; simpl; intro H; try discriminate.
  now inversion H.
Qed.

Lemma eq_filter_username_absent (who : string) (rows : list User) :
  ~ In who (map username rows) -> eq_filter col_username who rows = [].
Proof.
  induction rows as [|u rows IH]; simpl; intro H; [reflexivity|].
  destruct (String.eqb (username u) who) eqn:E.
  - apply String.eqb_eq in E. tauto.
  - apply IH. tauto.
Qed.

(** The rows carrying a fresh key after an update are exactly the rows
    the update touched. *)
Lemma update_rows_new_key (k who : string) (rows : list User) :
  ~ In k (map api_key rows) ->
  eq_filter col_api_key k (update_rows k who rows)
  = update_rows k who (eq_filter col_username who rows).
Proof.
  induction rows as [|u rows IH]; simpl; intro H; [reflexivity|].
  destruct (String.eqb (username u) who) eqn:E; simpl.
  - rewrite String.eqb_refl, E. f_equal. apply IH. tauto.
  - destruct (String.eqb (api_key u) k) eqn:K.
    + apply String.eqb_eq in K. tauto.
    + apply IH. tauto.
Qed.

(** A key held only by rows of [who] is gone after [who]'s update. *)
Lemma update_rows_old_key (k k' who : string) (rows : list User) :
  k <> k' ->
  (forall r, In r rows -> api_key r = k -> username r = who) ->
  eq_filter col_api_key k (update_rows k' who rows) = [].
Proof.
  intros Hne. induction rows as [|u rows IH]; simpl; intro H; [reflexivity|].
  destruct (String.eqb (username u) who) eqn:E; simpl.
  - assert (K : String.eqb k' k = false) by (apply String.eqb_neq; congruence).
    rewrite K. apply IH. auto.
  - destruct (String.eqb (api_key u) k) eqn:K.
    + apply String.eqb_eq in K. apply String.eqb_neq in E.
      exfalso. apply E, H; auto.
    + apply IH. auto.
Qed.

Section AccountProperties.
Context {bcrypt : Bcrypt}.

Lemma rotate_api_key_success (st st' : Store) (who pw k : string) (body : Json) :
  rotate_api_key who pw k st = (Return body, st') ->
  exists user,
    eq_filter col_username who (users st) = [user] /\
    checkpw pw (password user) = true /\
    body = JDict [("api_key", JString k)] /\
    st' = {| users := update_rows k who (users st);
             issued := issued st ++ [Update k who] |}.
Proof.
  unfold rotate_api_key, bind, select_eq_single.
  destruct (single (eq_filter col_username who (users st))) as [user|] eqn:S;
    [|discriminate].
  simpl. destruct (checkpw pw (password user)) eqn:C; [|discriminate].
  simpl. intro H. inversion H; subst. exists user.
  repeat split; auto using single_Some.
Qed.

Lemma rotate_api_key_failure (st st' : Store) (who pw k : string) (r : Raised) :
  rotate_api_key who pw k st = (Raise r, st') ->
  r = HTTPException 403 "Invalid username or password" /\ st' = st.
Proof.
  unfold rotate_api_key, bind, select_eq_single.
  destruct (single (eq_filter col_username who (users st))) as [user|].
  - simpl. destruct (checkpw pw _); simpl;
      intro H; inversion H; subst; split; reflexivity.
  - simpl. intro H; inversion H; subst; split; reflexivity.
Qed.

Lemma delete_account_failure (st st' : Store) (who pw : string) (r : Raised) :
  delete_account who pw st = (Raise r, st') ->
  r = HTTPException 403 "Invalid username or password" /\ st' = st.
Proof.
  unfold delete_account, bind, select_eq_single.
  destruct (single (eq_filter col_username who (users st))) as [user|].
  - simpl. destruct (checkpw pw _); simpl;
      intro H; inversion H; subst; split; reflexivity.
  - simpl. intro H; inversion H; subst; split; reflexivity.
Qed.
End AccountProperties.

Section AccountClaims.
Context {bcrypt : Bcrypt}.
Context {PyFloat Image : Type} {model : ModelWrapper PyFloat Image}.

(** C7. [register] inserts the user record and returns the key it
    drew; when that key is fresh (no stored user has it) the key is
    active at once: [get_api_key] returns it on the store as
    [register] left it, and a [/completion] request presenting it is not
    turned away by authentication. *)
Theorem register_key_immediately_active
    (st : Store) (who pw salt uuid4 : string) :
  ~ In uuid4 (stored_keys st) ->
  exists st',
    register who pw salt uuid4 st
    = (Return (JDict [("api_key", JString uuid4)]), st') /\
    users st' = (users st ++ [{| username := who;
                                 password := hashpw pw salt;
                                 api_key := uuid4 |}])%list /\
    issued st' = (issued st ++ [Insert {| username := who;
                                          password := hashpw pw salt;
                                          api_key := uuid4 |}])%list /\
    get_api_key uuid4 st' = (Return uuid4, st') /\
    (forall (req : Request PyFloat) (srv : Server),
        store srv = st' -> x_api_key req = Some uuid4 ->
        status (fst (post_completion req srv)) <> 403).
Proof.
  intro Hfresh. eexists. split; [reflexivity|]. split; [reflexivity|].
  split; [reflexivity|].
  match goal with |- ?G /\ _ => assert (Hg : G) end.
  { eapply get_api_key_found. simpl. unfold eq_filter.
    rewrite filter_app. fold (eq_filter col_api_key uuid4 (users st)).
    rewrite (eq_filter_absent _ _ Hfresh). simpl.
    rewrite String.eqb_refl. reflexivity. }
  split; [exact Hg|].
  intros req srv Hs Hk. apply (post_completion_accepted_status req srv uuid4 Hk).
  rewrite Hs. exact Hg.
Qed.

(** C5. In a store whose api_keys identify at most one user each, a
    successful [rotate_api_key] that drew a new key (one no stored user
    has) answers with that key, after which every key the user had is
    refused with 403, by [get_api_key] and so by [/completion], and the
    returned key is accepted. *)
Theorem rotate_api_key_invalidates_old_key
    (st st' : Store) (who pw uuid4 : string) (body : Json) :
  unique_api_keys st ->
  ~ In uuid4 (stored_keys st) ->
  rotate_api_key who pw uuid4 st = (Return body, st') ->
  body = JDict [("api_key", JString uuid4)] /\
  (forall u, In u (users st) -> username u = who ->
     get_api_key (api_key u) st'
     = (Raise (HTTPException 403 "Invalid API Key"), st') /\
     forall (req : Request PyFloat) (srv : Server),
       store srv = st' -> x_api_key req = Some (api_key u) ->
       post_completion req srv
       = ({| status := 403;
             content := JDict [("detail", JString "Invalid API Key")] |}, srv)) /\
  get_api_key uuid4 st' = (Return uuid4, st') /\
  (forall (req : Request PyFloat) (srv : Server),
      store srv = st' -> x_api_key req = Some uuid4 ->
      status (fst (post_completion req srv)) <> 403).
Proof.
  intros ND Hfresh Hrot.
  destruct (rotate_api_key_success _ _ _ _ _ _ Hrot) as (user & Hsel & _ & Hbody & Hst).
  split; [exact Hbody|]. subst st'. split.
  - intros u Hin Hname.
    match goal with |- ?G /\ _ => assert (Hg : G) end.
    { apply get_api_key_not_found. simpl. apply update_rows_old_key.
      - intro E. apply Hfresh. rewrite <- E. unfold stored_keys. now apply in_map.
      - intros r Hr Hkey. rewrite <- Hname. f_equal.
        apply (NoDup_map_inj api_key (users st)); auto. }
    split; [exact Hg|].
    intros req srv Hs Hk.
    apply (post_completion_rejected req srv (api_key u)); [exact Hk|].
    rewrite Hs. exact Hg.
  - match goal with |- ?G /\ _ => assert (Hg : G) end.
    { eapply get_api_key_found. simpl.
      rewrite (update_rows_new_key _ _ _ Hfresh), Hsel. simpl.
      reflexivity. }
    split; [exact Hg|].
    intros req srv Hs Hk. apply (post_completion_accepted_status req srv uuid4 Hk).
    rewrite Hs. exact Hg.
Qed.

(** C8. A call to [rotate_api_key] for a username no stored user has
    and a call for a stored user with a password that does not check
    both fail, with the same exception and so the same response: 403
    and the one generic message. *)
Theorem rotate_api_key_failures_indistinguishable
    (st1 st2 : Store) (who1 pw1 k1 who2 pw2 k2 : string) (user : User) :
  ~ In who1 (map username (users st1)) ->
  eq_filter col_username who2 (users st2) = [user] ->
  checkpw pw2 (password user) = false ->
  fst (rotate_api_key who1 pw1 k1 st1)
  = Raise (HTTPException 403 "Invalid username or password") /\
  fst (rotate_api_key who2 pw2 k2 st2)
  = Raise (HTTPException 403 "Invalid username or password") /\
  respond (fst (rotate_api_key who1 pw1 k1 st1))
  = respond (fst (rotate_api_key who2 pw2 k2 st2)).
Proof.
  intros Habsent Hsel Hpw.
  assert (H1 : fst (rotate_api_key who1 pw1 k1 st1)
               = Raise (HTTPException 403 "Invalid username or password")).
  { unfold rotate_api_key, bind, select_eq_single.
    now rewrite (eq_filter_username_absent _ _ Habsent). }
  assert (H2 : fst (rotate_api_key who2 pw2 k2 st2)
               = Raise (HTTPException 403 "Invalid username or password")).
  { unfold rotate_api_key, bind, select_eq_single.
    rewrite Hsel. simpl. now rewrite Hpw. }
  rewrite H1, H2. auto.
Qed.

(** C9. When [rotate_api_key] or [delete_account] raises, it raises the
    403 and leaves the store as it was: the same rows, and no insert,
    update or delete added to the requests issued. *)
Theorem failed_rotate_or_delete_leaves_store
    (st st' : Store) (who pw uuid4 : string) (r : Raised) :
  (rotate_api_key who pw uuid4 st = (Raise r, st') ->
   r = HTTPException 403 "Invalid username or password" /\
   st' = st /\ users st' = users st /\ issued st' = issued st) /\
  (delete_account who pw st = (Raise r, st') ->
   r = HTTPException 403 "Invalid username or password" /\
   st' = st /\ users st' = users st /\ issued st' = issued st).
Proof.
  split; intro H.
  - destruct (rotate_api_key_failure _ _ _ _ _ _ H) as [-> ->]. auto.
  - destruct (delete_account_failure _ _ _ _ _ H) as [-> ->]. auto.
Qed.
End AccountClaims.

Lemma two_users_unique : unique_api_keys two_users.
Proof.
  unfold unique_api_keys. vm_compute.
  repeat constructor; simpl; intuition discriminate.
Qed.

Lemma register_key_immediately_active_witness :
  ~ In "key-carol" (stored_keys two_users) /\
  exists st',
    register "carol" "pw3" "s3" "key-carol" two_users
    = (Return (JDict [("api_key", JString "key-carol")]), st') /\
    get_api_key "key-carol" st' = (Return "key-carol", st').
Proof.
  assert (Hfresh : ~ In "key-carol" (stored_keys two_users)).
  { vm_compute. intuition discriminate. }
  split; [exact Hfresh|].
  destruct (@register_key_immediately_active toy_bcrypt nat nat toy_model
              two_users "carol" "pw3" "s3" "key-carol" Hfresh)
    as (st' & Hreg & _ & _ & Hget & _).
  exists st'. split; assumption.
Defined.

Lemma rotate_api_key_invalidates_old_key_witness :
  unique_api_keys two_users /\
  ~ In "key-new" (stored_keys two_users) /\
  rotate_api_key "alice" "pw1" "key-new" two_users
  = (Return (JDict [("api_key", JString "key-new")]), rotated) /\
  get_api_key "key-alice" rotated
  = (Raise (HTTPException 403 "Invalid API Key"), rotated) /\
  get_api_key "key-new" rotated = (Return "key-new", rotated).
Proof.
  assert (Hfresh : ~ In "key-new" (stored_keys two_users)).
  { vm_compute. intuition discriminate. }
  assert (Hrot : rotate_api_key "alice" "pw1" "key-new" two_users
                 = (Return (JDict [("api_key", JString "key-new")]), rotated)).
  { reflexivity. }
  destruct (@rotate_api_key_invalidates_old_key toy_bcrypt nat nat toy_model
              two_users rotated "alice" "pw1" "key-new" _
              two_users_unique Hfresh Hrot)
    as (_ & Hold & Hnew & _).
  split; [exact two_users_unique|]. split; [exact Hfresh|].
  split; [exact Hrot|]. split.
  - apply (Hold alice); [left; reflexivity|reflexivity].
  - exact Hnew.
Defined.

Lemma rotate_api_key_failures_indistinguishable_witness :
  ~ In "mallory" (map username (users two_users)) /\
  eq_filter col_username "alice" (users two_users) = [alice] /\
  checkpw "guess" (password alice) = false /\
  respond (fst (rotate_api_key "mallory" "pw1" "k1" two_users))
  = respond (fst (rotate_api_key "alice" "guess" "k2" two_users)).
Proof.
  assert (Habsent : ~ In "mallory" (map username (users two_users))).
  { vm_compute. intuition discriminate. }
  assert (Hsel : eq_filter col_username "alice" (users two_users) = [alice])
    by reflexivity.
  assert (Hpw : checkpw "guess" (password alice) = false) by reflexivity.
  split; [exact Habsent|]. split; [exact Hsel|]. split; [exact Hpw|].
  apply (@rotate_api_key_failures_indistinguishable toy_bcrypt
           two_users two_users "mallory" "pw1" "k1" "alice" "guess" "k2" alice
           Habsent Hsel Hpw).
Defined.

Lemma failed_rotate_or_delete_leaves_store_witness :
  rotate_api_key "alice" "guess" "k2" two_users
  = (Raise (HTTPException 403 "Invalid username or password"), two_users) /\
  delete_account "mallory" "pw" two_users
  = (Raise (HTTPException 403 "Invalid username or password"), two_users) /\
  issued two_users = [].
Proof.
  assert (Hrot : rotate_api_key "alice" "guess" "k2" two_users
                 = (Raise (HTTPException 403 "Invalid username or password"),
                    two_users)) by reflexivity.
  assert (Hdel : delete_account "mallory" "pw" two_users
                 = (Raise (HTTPException 403 "Invalid username or password"),
                    two_users)) by reflexivity.
  destruct (@failed_rotate_or_delete_leaves_store toy_bcrypt
              two_users two_users "alice" "guess" "k2"
              (HTTPException 403 "Invalid username or password")) as [Hr _].
  destruct (@failed_rotate_or_delete_leaves_store toy_bcrypt
              two_users two_users "mallory" "pw" "k2"
              (HTTPException 403 "Invalid username or password")) as [_ Hd].
  destruct (Hr Hrot) as (_ & _ & _ & Hi).
  destruct (Hd Hdel) as (_ & _ & _ & _).
  split; [exact Hrot|]. split; [exact Hdel|exact Hi].
Defined.

(** ** Completion *)

Section CompletionClaims.
Context {PyFloat Image : Type} {model : ModelWrapper PyFloat Image}.

Lemma completion_decode_failure (query : Query PyFloat) (f : UploadFile)
    (api_key : string) (e : Exception) :
  Image_open (read f) = Err e ->
  completion query (Some f) api_key = Raise (HTTPException 500 (str e)).
Proof.
  intro H. unfold completion, completion_try, read_image. now rewrite H.
Qed.

Lemma completion_model_failure (query : Query PyFloat)
    (image : option UploadFile) (image_data : option Image)
    (api_key : string) (e : Exception) :
  read_image image = Ok image_data ->
  get_response (completion_args query image_data) = Err e ->
  completion query image api_key = Raise (HTTPException 500 (str e)).
Proof.
  intros Hr Hm. unfold completion, completion_try. now rewrite Hr, Hm.
Qed.

(** C3. When decoding the upload raises [e], or decoding goes through
    and the model raises [e], [completion] raises
    [HTTPException(500, str(e))], which the framework answers as status
    500 with detail [str(e)]; a decode failure and a model failure with
    the same message give the same outcome. *)
Theorem completion_failures_are_500
    (query : Query PyFloat) (image : option UploadFile) (api_key : string)
    (e : Exception) :
  (forall f, image = Some f -> Image_open (read f) = Err e ->
     completion query image api_key = Raise (HTTPException 500 (str e))) /\
  (forall image_data, read_image image = Ok image_data ->
     get_response (completion_args query image_data) = Err e ->
     completion query image api_key = Raise (HTTPException 500 (str e))) /\
  respond (Raise (HTTPException 500 (str e)))
  = {| status := 500; content := JDict [("detail", JString (str e))] |} /\
  (forall (query' : Query PyFloat) (f : UploadFile) (api_key' : string)
          (e' : Exception) (image_data : option Image),
     Image_open (read f) = Err e' -> str e' = str e ->
     read_image image = Ok image_data ->
     get_response (completion_args query image_data) = Err e ->
     completion query' (Some f) api_key' = completion query image api_key).
Proof.
  split; [|split; [|split]].
  - intros f -> H. now apply completion_decode_failure.
  - intros image_data Hr Hm. now apply (completion_model_failure _ _ image_data).
  - reflexivity.
  - intros query' f api_key' e' image_data Hd Hs Hr Hm.
    rewrite (completion_decode_failure _ _ _ _ Hd).
    rewrite (completion_model_failure _ _ _ _ _ Hr Hm).
    now rewrite Hs.
Qed.

(** C10. A query whose [text] is the empty string is forwarded with
    [text=None], exactly as the same query with [text] omitted:
    [completion] passes the same arguments to the model and has the
    same outcome. *)
Theorem empty_text_forwarded_as_none
    (query : Query PyFloat) (image : option UploadFile) (api_key : string) :
  text query = Some "" ->
  let omitted := {| text := None;
                    description_type := description_type query;
                    enable_sampling := enable_sampling query;
                    sampling_topp := sampling_topp query;
                    sampling_temperature := sampling_temperature query |} in
  text_data query = None /\
  (forall image_data : option Image,
     arg_text (completion_args query image_data) = None /\
     completion_args query image_data = completion_args omitted image_data) /\
  completion query image api_key = completion omitted image api_key.
Proof.
  intros Ht omitted.
  assert (Hd : text_data query = None) by (unfold text_data; now rewrite Ht).
  assert (Ha : forall image_data : option Image,
             completion_args query image_data = completion_args omitted image_data).
  { intro image_data. unfold completion_args. now rewrite Hd. }
  split; [exact Hd|]. split.
  - intro image_data. split; [exact Hd|apply Ha].
  - unfold completion, completion_try.
    destruct (read_image image); [|reflexivity]. now rewrite Ha.
Qed.
End CompletionClaims.

Lemma completion_failures_are_500_witness :
  completion (ask (Some "hi")) (Some {| read := "" |}) "key-alice"
  = Raise (HTTPException 500 "cannot identify image file") /\
  completion (ask None) (Some {| read := "png" |}) "key-alice"
  = Raise (HTTPException 500 "no prompt").
Proof.
  split.
  - destruct (@completion_failures_are_500 nat nat toy_model
                (ask (Some "hi")) (Some {| read := "" |}) "key-alice"
                (mkException "cannot identify image file")) as (Hd & _).
    apply (Hd {| read := "" |}); reflexivity.
  - destruct (@completion_failures_are_500 nat nat toy_model
                (ask None) (Some {| read := "png" |}) "key-alice"
                (mkException "no prompt")) as (_ & Hm & _).
    apply (Hm (Some 3)); reflexivity.
Defined.

Lemma empty_text_forwarded_as_none_witness :
  text (ask (Some "")) = Some "" /\
  completion (ask (Some "")) None "key-alice" = completion (ask None) None "key-alice" /\
  completion (ask (Some "")) None "key-alice" = Raise (HTTPException 500 "no prompt").
Proof.
  split; [reflexivity|].
  destruct (@empty_text_forwarded_as_none nat nat toy_model
              (ask (Some "")) None "key-alice" eq_refl) as (_ & _ & Hc).
  split; [exact Hc|reflexivity].
Defined.

(** ** Checkout *)

Section CheckoutClaims.
Context {Usage : Type} {billing : Billing Usage}.

(** C4. Once usage and cost are computed, [create_checkout_session]
    returns [{'id': session id}] when the payment provider creates the
    session, and returns the text of the error, as a 200 response body,
    when the payment provider raises. *)
Theorem create_checkout_session_outcomes
    (user_id : string) (usage : Usage) (cost : nat) :
  get_usage_from_database user_id = Ok usage ->
  calculate_cost usage = Ok cost ->
  (forall checkout_session,
     Session_create (checkout_params cost) = Ok checkout_session ->
     create_checkout_session user_id
     = Return (JDict [("id", JString (id checkout_session))])) /\
  (forall e,
     Session_create (checkout_params cost) = Err e ->
     create_checkout_session user_id = Return (JString (str e)) /\
     respond (create_checkout_session user_id)
     = {| status := 200; content := JString (str e) |}).
Proof.
  intros Hu Hc. unfold create_checkout_session. rewrite Hu, Hc. split.
  - intros s Hs. now rewrite Hs.
  - intros e He. now rewrite He.
Qed.
End CheckoutClaims.

Lemma create_checkout_session_outcomes_witness :
  create_checkout_session "u1" = Return (JDict [("id", JString "cs_test_1")]) /\
  respond (create_checkout_session "")
  = {| status := 200; content := JString "Invalid positive integer" |}.
Proof.
  split.
  - destruct (@create_checkout_session_outcomes nat toy_billing "u1" 2 4
                eq_refl eq_refl) as [Hok _].
    apply (Hok {| id := "cs_test_1" |}). reflexivity.
  - destruct (@create_checkout_session_outcomes nat toy_billing "" 0 0
                eq_refl eq_refl) as [_ Herr].
    apply (Herr (mkException "Invalid positive integer")). reflexivity.
Defined.

(** ** Rate limiting of [/completion] *)

Section RateLimit.
Context {PyFloat Image : Type} {model : ModelWrapper PyFloat Image}.

Lemma completion_handled (q : Query PyFloat) (image : option UploadFile)
    (api_key : string) :
  handled (respond (completion q image api_key)) = true.
Proof.
  unfold completion. destruct (completion_try q image); reflexivity.
Qed.

(** One request either gets to the body of [completion], and is then
    remembered by the limiter, which had fewer than 5 hits of its
    address in the window, or is answered without leaving a trace. *)
Lemma post_completion_cases (req : Request PyFloat) (srv : Server) :
  (handled (fst (post_completion req srv)) = true /\
   snd (post_completion req srv)
   = {| store := store srv;
        hits := {| hit_key := client_host req; hit_time := arrival req |}
                :: hits srv |} /\
   window_count 60 (client_host req) (arrival req) (hits srv) < 5)
  \/
  (handled (fst (post_completion req srv)) = false /\
   snd (post_completion req srv) = srv).
Proof.
  unfold post_completion, bind, api_key_header.
  destruct (x_api_key req) as [key|]; simpl.
  2:{ right. destruct srv; auto. }
  unfold get_api_key, bind, select_eq_single.
  destruct (single (eq_filter col_api_key key (users (store srv)))); simpl.
  2:{ right. destruct srv; auto. }
  unfold limit.
  destruct (window_count 60 (client_host req) (arrival req) (hits srv) <? 5) eqn:W.
  - left. simpl. apply Nat.ltb_lt in W. auto using completion_handled.
  - right. destruct srv; auto.
Qed.

Lemma serve_cons (req : Request PyFloat) (rest : list (Request PyFloat))
    (srv : Server) :
  serve (req :: rest) srv
  = (fst (post_completion req srv)
       :: fst (serve rest (snd (post_completion req srv))),
     snd (serve rest (snd (post_completion req srv)))).
Proof.
  simpl. destruct (post_completion req srv) as [resp srv1]. simpl.
  destruct (serve rest srv1); reflexivity.
Qed.

Lemma serve_store (reqs : list (Request PyFloat)) (srv : Server) :
  store (snd (serve reqs srv)) = store srv.
Proof.
  revert srv; induction reqs as [|req rest IH]; intro srv; [reflexivity|].
  rewrite serve_cons. simpl. rewrite IH.
  destruct (post_completion_cases req srv) as [(_ & -> & _)|(_ & ->)];
    reflexivity.
Qed.

Lemma handled_before_cons (a : string) (now : nat) (req : Request PyFloat)
    (resp : Response) (run : list (Request PyFloat * Response)) :
  length (handled_before a now ((req, resp) :: run))
  = (if String.eqb (client_host req) a && (now <? arrival req + 60)
        && handled resp then 1 else 0)
    + length (handled_before a now run).
Proof.
  unfold handled_before. cbn [filter fst snd].
  destruct (String.eqb (client_host req) a && (now <? arrival req + 60)
            && handled resp); reflexivity.
Qed.



Lemma window_count_cons (a : string) (now : nat) (h : Hit) (hs : list Hit) :
  window_count 60 a now (h :: hs)
  = (if String.eqb (hit_key h) a && (now <? hit_time h + 60) then 1 else 0)
    + window_count 60 a now hs.
Proof.
  unfold window_count. cbn [filter]. unfold in_window at 1.
  destruct (String.eqb (hit_key h) a && (now <? hit_time h + 60)); reflexivity.
Qed.

(** What the limiter counts after a run: what it counted before, plus
    the requests of the run that got to the body of [completion]. *)
Lemma serve_window_count (a : string) (now : nat)
    (reqs : list (Request PyFloat)) (srv : Server) :
  window_count 60 a now (hits (snd (serve reqs srv)))
  = length (handled_before a now (combine reqs (fst (serve reqs srv))))
    + window_count 60 a now (hits srv).
Proof.
  revert srv; induction reqs as [|req rest IH]; intro srv; [reflexivity|].
  rewrite serve_cons. cbn [fst snd combine].
  rewrite IH, handled_before_cons.
  destruct (post_completion_cases req srv) as [(Hh & -> & _)|(Hh & ->)];
    rewrite Hh; cbn [hits].
  - rewrite window_count_cons. cbn [hit_key hit_time].
    rewrite Bool.andb_true_r. lia.
  - rewrite Bool.andb_false_r. reflexivity.
Qed.




End RateLimit.



(** * Further properties of the handlers *)

(** ** Token counting composes *)

Lemma count_char_append (c : ascii) (a b : string) :
  count_char c (a ++ b) = count_char c a + count_char c b.
Proof.
  induction a as [|d a IH]; simpl; [reflexivity|]. rewrite IH. lia.
Qed.

(** X1. [count_tokens] never answers 0, and it is additive over texts
    joined by one space; joining without a space merges the last token of
    the first text with the first token of the second. *)
Theorem count_tokens_additive (a b : string) :
  1 <= count_tokens a /\
  count_tokens (a ++ " " ++ b) = count_tokens a + count_tokens b /\
  count_tokens (a ++ b) + 1 = count_tokens a + count_tokens b.
Proof.
  unfold count_tokens. rewrite !split_length, !count_char_append.
  simpl. lia.
Qed.

(** ** Deleting an account *)

Lemma delete_rows_gone (who : string) (rows : list User) :
  ~ In who (map username (delete_rows who rows)).
Proof.
  unfold delete_rows. intro H. apply in_map_iff in H.
  destruct H as (u & Hname & Hin). apply filter_In in Hin.
  destruct Hin as [_ Hneq]. apply Bool.negb_true_iff, String.eqb_neq in Hneq.
  contradiction.
Qed.

Lemma delete_rows_keeps (who : string) (rows : list User) (u : User) :
  In u rows -> username u <> who -> In u (delete_rows who rows).
Proof.
  intros Hin Hneq. apply filter_In. split; [exact Hin|].
  apply Bool.negb_true_iff, String.eqb_neq, Hneq.
Qed.


(** Deleting rows keeps the remaining api_keys distinct. *)
Lemma delete_rows_unique (who : string) (rows : list User) :
  NoDup (map api_key rows) -> NoDup (map api_key (delete_rows who rows)).
Proof.
  induction rows as [|u rows IH]; simpl; intro ND; [constructor|].
  inversion ND as [|k ks Hnotin ND']; subst.
  destruct (String.eqb (username u) who); simpl; [auto|].
  constructor; [|auto]. intro H. apply Hnotin.
  apply in_map_iff in H. destruct H as (x & Hx & Hin).
  apply filter_In in Hin. apply in_map_iff. exists x. tauto.
Qed.

Lemma delete_rows_old_key (k who : string) (rows : list User) :
  (forall r, In r rows -> api_key r = k -> username r = who) ->
  eq_filter col_api_key k (delete_rows who rows) = [].
Proof.
  intro H. apply eq_filter_absent. intro Hin.
  apply in_map_iff in Hin. destruct Hin as (r & Hk & Hr).
  apply filter_In in Hr. destruct Hr as [Hr Hneq].
  apply Bool.negb_true_iff, String.eqb_neq in Hneq. auto.
Qed.

Section DeleteAccount.
Context {bcrypt : Bcrypt}.
Context {PyFloat Image : Type} {model : ModelWrapper PyFloat Image}.

Lemma delete_account_success (st st' : Store) (who pw : string) (body : Json) :
  delete_account who pw st = (Return body, st') ->
  exists user,
    eq_filter col_username who (users st) = [user] /\
    checkpw pw (password user) = true /\
    body = JDict [("detail", JString "Account deleted")] /\
    st' = {| users := delete_rows who (users st);
             issued := issued st ++ [Delete who] |}.
Proof.
  unfold delete_account, bind, select_eq_single.
  destruct (single (eq_filter col_username who (users st))) as [user|] eqn:S;
    [|discriminate].
  simpl. destruct (checkpw pw (password user)) eqn:C; [|discriminate].
  simpl. intro H. inversion H; subst. exists user.
  repeat split; auto using single_Some.
Qed.

(** X2. In a store whose api_keys identify at most one user each, a
    successful [delete_account] removes the user's row and nothing else:
    the username is gone, the key the user had is refused with 403 by
    [get_api_key] and by [/completion], and every other user's row is
    kept and its key still accepted. *)
Theorem delete_account_removes_user
    (st st' : Store) (who pw : string) (body : Json) :
  unique_api_keys st ->
  delete_account who pw st = (Return body, st') ->
  body = JDict [("detail", JString "Account deleted")] /\
  ~ In who (map username (users st')) /\
  (forall u, In u (users st) -> username u = who ->
     get_api_key (api_key u) st'
     = (Raise (HTTPException 403 "Invalid API Key"), st') /\
     forall (req : Request PyFloat) (srv : Server),
       store srv = st' -> x_api_key req = Some (api_key u) ->
       post_completion req srv
       = ({| status := 403;
             content := JDict [("detail", JString "Invalid API Key")] |}, srv)) /\
  (forall u, In u (users st) -> username u <> who ->
     In u (users st') /\
     get_api_key (api_key u) st' = (Return (api_key u), st')).
Proof.
  intros ND Hdel.
  destruct (delete_account_success _ _ _ _ _ Hdel) as (user & _ & _ & Hbody & Hst).
  split; [exact Hbody|]. subst st'. cbn [users]. split; [apply delete_rows_gone|].
  split.
  - intros u Hin Hname.
    match goal with |- ?G /\ _ => assert (Hg : G) end.
    { apply get_api_key_not_found. cbn [users]. apply delete_rows_old_key.
      intros r Hr Hkey. rewrite <- Hname. f_equal.
      apply (NoDup_map_inj api_key (users st)); auto. }
    split; [exact Hg|]. intros req srv Hs Hk.
    apply (post_completion_rejected req srv (api_key u)); [exact Hk|].
    rewrite Hs. exact Hg.
  - intros u Hin Hneq.
    pose proof (delete_rows_keeps who (users st) u Hin Hneq) as Hkept.
    split; [exact Hkept|].
    destruct (eq_filter_unique (api_key u) (delete_rows who (users st)))
      as (v & Hv & _).
    + apply delete_rows_unique, ND.
    + now apply in_map.
    + eapply get_api_key_found. cbn [users]. exact Hv.
Qed.

(** X3. After a successful [delete_account] the account cannot be used
    again: whatever the password, [rotate_api_key] and [delete_account]
    for that username fail with the generic 403 and leave the store as the
    deletion left it. *)
Theorem deleted_account_stays_deleted
    (st st' : Store) (who pw pw' uuid4 : string) (body : Json) :
  delete_account who pw st = (Return body, st') ->
  rotate_api_key who pw' uuid4 st'
  = (Raise (HTTPException 403 "Invalid username or password"), st') /\
  delete_account who pw' st'
  = (Raise (HTTPException 403 "Invalid username or password"), st').
Proof.
  intro Hdel.
  destruct (delete_account_success _ _ _ _ _ Hdel) as (user & _ & _ & _ & Hst).
  assert (Hgone : eq_filter col_username who (users st') = []).
  { apply eq_filter_username_absent. subst st'. apply delete_rows_gone. }
  unfold rotate_api_key, delete_account, bind, select_eq_single.
  rewrite Hgone. split; reflexivity.
Qed.
End DeleteAccount.

Lemma delete_account_removes_user_witness :
  unique_api_keys two_users /\
  delete_account "bob" "pw2" two_users
  = (Return (JDict [("detail", JString "Account deleted")]), without_bob) /\
  get_api_key "key-bob" without_bob
  = (Raise (HTTPException 403 "Invalid API Key"), without_bob) /\
  get_api_key "key-alice" without_bob = (Return "key-alice", without_bob).
Proof.
  assert (Hdel : delete_account "bob" "pw2" two_users
                 = (Return (JDict [("detail", JString "Account deleted")]),
                    without_bob)) by reflexivity.
  destruct (@delete_account_removes_user toy_bcrypt nat nat toy_model
              two_users without_bob "bob" "pw2" _ two_users_unique Hdel)
    as (_ & _ & Hold & Hothers).
  split; [exact two_users_unique|]. split; [exact Hdel|]. split.
  - apply (Hold bob); [right; left; reflexivity|reflexivity].
  - apply (Hothers alice); [left; reflexivity|discriminate].
Defined.

Lemma deleted_account_stays_deleted_witness :
  delete_account "bob" "pw2" two_users
  = (Return (JDict [("detail", JString "Account deleted")]), without_bob) /\
  rotate_api_key "bob" "pw2" "key-again" without_bob
  = (Raise (HTTPException 403 "Invalid username or password"), without_bob).
Proof.
  assert (Hdel : delete_account "bob" "pw2" two_users
                 = (Return (JDict [("detail", JString "Account deleted")]),
                    without_bob)) by reflexivity.
  split; [exact Hdel|].
  apply (@deleted_account_stays_deleted toy_bcrypt
           two_users without_bob "bob" "pw2" "pw2" "key-again" _ Hdel).
Defined.

(** ** Rotation and registration *)

Lemma update_rows_usernames (k who : string) (rows : list User) :
  map username (update_rows k who rows) = map username rows.
Proof.
  induction rows as [|u rows IH]; simpl; [reflexivity|].
  rewrite IH. destruct (String.eqb (username u) who); reflexivity.
Qed.

Lemma update_rows_passwords (k who : string) (rows : list User) :
  map password (update_rows k who rows) = map password rows.
Proof.
  induction rows as [|u rows IH]; simpl; [reflexivity|].
  rewrite IH. destruct (String.eqb (username u) who); reflexivity.
Qed.

(** An update does not move rows in or out of a filter on the username. *)
Lemma update_rows_eq_filter (k who who' : string) (rows : list User) :
  eq_filter col_username who' (update_rows k who rows)
  = update_rows k who (eq_filter col_username who' rows).
Proof.
  induction rows as [|u rows IH]; simpl; [reflexivity|].
  destruct (String.eqb (username u) who) eqn:E; simpl;
    destruct (String.eqb (username u) who') eqn:E'; simpl;
    rewrite ?E; rewrite IH; reflexivity.
Qed.

Lemma update_rows_untouched (k who : string) (rows : list User) :
  eq_filter col_username who rows = [] -> update_rows k who rows = rows.
Proof.
  induction rows as [|u rows IH]; simpl; [reflexivity|].
  destruct (String.eqb (username u) who); [discriminate|].
  intro H. f_equal. auto.
Qed.

Lemma update_rows_keys (k who x : string) (rows : list User) :
  In x (map api_key (update_rows k who rows)) ->
  x = k \/ In x (map api_key rows).
Proof.
  induction rows as [|u rows IH]; simpl; [tauto|].
  destruct (String.eqb (username u) who); simpl; intros [H|H]; auto.
  - destruct (IH H); auto.
  - destruct (IH H); auto.
Qed.

Lemma update_rows_keeps (k who : string) (rows : list User) (u : User) :
  In u rows -> username u <> who -> In u (update_rows k who rows).
Proof.
  intros Hin Hneq. unfold update_rows. apply in_map_iff. exists u.
  apply String.eqb_neq in Hneq. rewrite Hneq. auto.
Qed.

(** Giving the one row of [who] a key nobody has keeps the keys distinct. *)
Lemma update_rows_unique (k who : string) (rows : list User) (user : User) :
  NoDup (map api_key rows) -> ~ In k (map api_key rows) ->
  eq_filter col_username who rows = [user] ->
  NoDup (map api_key (update_rows k who rows)).
Proof.
  induction rows as [|u rows IH]; simpl; intros ND Hfresh Hsel; [constructor|].
  inversion ND as [|b bs Hnotin ND']; subst.
  destruct (String.eqb (username u) who) eqn:E; simpl.
  - inversion Hsel as [[Hu Hrest]].
    rewrite (update_rows_untouched _ _ _ Hrest).
    constructor; tauto.
  - constructor.
    + intro H. destruct (update_rows_keys _ _ _ _ H) as [Hk|H']; tauto.
    + apply IH; tauto.
Qed.

Section RotateAndRegister.
Context {bcrypt : Bcrypt}.

(** X4. [register], [rotate_api_key] and [delete_account] keep the
    invariant of the data model: in a store whose api_keys identify at
    most one user each, and for a drawn key no stored user has, the store
    they leave (whether they return or raise) again has distinct
    api_keys. *)
Theorem handlers_keep_api_keys_unique
    (st : Store) (who pw salt uuid4 : string) :
  unique_api_keys st ->
  ~ In uuid4 (stored_keys st) ->
  unique_api_keys (snd (register who pw salt uuid4 st)) /\
  unique_api_keys (snd (rotate_api_key who pw uuid4 st)) /\
  unique_api_keys (snd (delete_account who pw st)).
Proof.
  intros ND Hfresh. split; [|split].
  - unfold unique_api_keys, stored_keys. cbn [register bind insert ret snd users].
    rewrite map_app. simpl.
    apply NoDup_app; [exact ND|repeat constructor; simpl; tauto|].
    intros x Hx [<-|[]]. contradiction.
  - destruct (rotate_api_key who pw uuid4 st) as [[body|r] st'] eqn:Hrot; cbn [snd].
    + destruct (rotate_api_key_success _ _ _ _ _ _ Hrot) as (user & Hsel & _ & _ & ->).
      unfold unique_api_keys, stored_keys. cbn [users].
      eapply update_rows_unique; eauto.
    + destruct (rotate_api_key_failure _ _ _ _ _ _ Hrot) as [_ ->]. exact ND.
  - destruct (delete_account who pw st) as [[body|r] st'] eqn:Hdel; cbn [snd].
    + unfold delete_account, bind, select_eq_single in Hdel.
      destruct (single (eq_filter col_username who (users st))); [|discriminate].
      simpl in Hdel. destruct (checkpw pw _); [|discriminate].
      simpl in Hdel. inversion Hdel; subst.
      unfold unique_api_keys, stored_keys. cbn [users].
      apply delete_rows_unique, ND.
    + destruct (delete_account_failure _ _ _ _ _ Hdel) as [_ ->]. exact ND.
Qed.

(** X5. A successful [rotate_api_key] changes api_keys only: usernames
    and password hashes stay as they were, row for row, so the same
    password still works afterwards, for a further rotation as for
    deleting the account. *)
Theorem rotate_api_key_keeps_credentials
    (st st' : Store) (who pw uuid4 : string) (body : Json) :
  rotate_api_key who pw uuid4 st = (Return body, st') ->
  map username (users st') = map username (users st) /\
  map password (users st') = map password (users st) /\
  (forall uuid4', exists st'',
     rotate_api_key who pw uuid4' st'
     = (Return (JDict [("api_key", JString uuid4')]), st'')) /\
  (exists st'',
     delete_account who pw st'
     = (Return (JDict [("detail", JString "Account deleted")]), st'')).
Proof.
  intro Hrot.
  destruct (rotate_api_key_success _ _ _ _ _ _ Hrot) as (user & Hsel & Hpw & _ & ->).
  cbn [users]. split; [apply update_rows_usernames|].
  split; [apply update_rows_passwords|].
  assert (Hsel' : eq_filter col_username who (update_rows uuid4 who (users st))
                  = [{| username := username user; password := password user;
                        api_key := uuid4 |}]).
  { rewrite update_rows_eq_filter, Hsel. simpl.
    assert (E : String.eqb (username user) who = true).
    { assert (Hin : In user (eq_filter col_username who (users st)))
        by (rewrite Hsel; now left).
      apply filter_In in Hin. tauto. }
    now rewrite E. }
  split.
  - intro uuid4'. eexists. unfold rotate_api_key, bind, select_eq_single.
    cbn [users]. rewrite Hsel'. simpl. rewrite Hpw. reflexivity.
  - eexists. unfold delete_account, bind, select_eq_single.
    cbn [users]. rewrite Hsel'. simpl. rewrite Hpw. reflexivity.
Qed.

(** X6. A successful [rotate_api_key] with a drawn key no stored user
    has touches only the user named: every other user's row is kept as it
    is and, in a store whose api_keys identify at most one user each, its
    key is still accepted. *)
Theorem rotate_api_key_leaves_others
    (st st' : Store) (who pw uuid4 : string) (body : Json) :
  unique_api_keys st ->
  ~ In uuid4 (stored_keys st) ->
  rotate_api_key who pw uuid4 st = (Return body, st') ->
  length (users st') = length (users st) /\
  forall u, In u (users st) -> username u <> who ->
    In u (users st') /\
    get_api_key (api_key u) st' = (Return (api_key u), st').
Proof.
  intros ND Hfresh Hrot.
  destruct (rotate_api_key_success _ _ _ _ _ _ Hrot) as (user & Hsel & _ & _ & ->).
  cbn [users]. split; [apply length_map|].
  intros u Hin Hneq.
  pose proof (update_rows_keeps uuid4 who (users st) u Hin Hneq) as Hkept.
  split; [exact Hkept|].
  destruct (eq_filter_unique (api_key u) (update_rows uuid4 who (users st)))
    as (v & Hv & _).
  - eapply update_rows_unique; eauto.
  - now apply in_map.
  - eapply get_api_key_found. cbn [users]. exact Hv.
Qed.

End RotateAndRegister.

Lemma handlers_keep_api_keys_unique_witness :
  unique_api_keys two_users /\
  ~ In "key-new" (stored_keys two_users) /\
  unique_api_keys rotated.
Proof.
  assert (Hfresh : ~ In "key-new" (stored_keys two_users)).
  { vm_compute. intuition discriminate. }
  destruct (@handlers_keep_api_keys_unique toy_bcrypt
              two_users "alice" "pw1" "s9" "key-new" two_users_unique Hfresh)
    as (_ & Hrot & _).
  split; [exact two_users_unique|]. split; [exact Hfresh|exact Hrot].
Defined.

Lemma rotate_api_key_keeps_credentials_witness :
  rotate_api_key "alice" "pw1" "key-new" two_users
  = (Return (JDict [("api_key", JString "key-new")]), rotated) /\
  map password (users rotated) = map password (users two_users) /\
  exists st'',
    rotate_api_key "alice" "pw1" "key-newer" rotated
    = (Return (JDict [("api_key", JString "key-newer")]), st'').
Proof.
  assert (Hrot : rotate_api_key "alice" "pw1" "key-new" two_users
                 = (Return (JDict [("api_key", JString "key-new")]), rotated))
    by reflexivity.
  destruct (@rotate_api_key_keeps_credentials toy_bcrypt
              two_users rotated "alice" "pw1" "key-new" _ Hrot)
    as (_ & Hpw & Hagain & _).
  split; [exact Hrot|]. split; [exact Hpw|]. exact (Hagain "key-newer").
Defined.

Lemma rotate_api_key_leaves_others_witness :
  unique_api_keys two_users /\
  ~ In "key-new" (stored_keys two_users) /\
  rotate_api_key "alice" "pw1" "key-new" two_users
  = (Return (JDict [("api_key", JString "key-new")]), rotated) /\
  get_api_key "key-bob" rotated = (Return "key-bob", rotated).
Proof.
  assert (Hfresh : ~ In "key-new" (stored_keys two_users)).
  { vm_compute. intuition discriminate. }
  assert (Hrot : rotate_api_key "alice" "pw1" "key-new" two_users
                 = (Return (JDict [("api_key", JString "key-new")]), rotated))
    by reflexivity.
  destruct (@rotate_api_key_leaves_others toy_bcrypt
              two_users rotated "alice" "pw1" "key-new" _
              two_users_unique Hfresh Hrot) as (_ & Hothers).
  split; [exact two_users_unique|]. split; [exact Hfresh|]. split; [exact Hrot|].
  apply (Hothers bob); [right; left; reflexivity|discriminate].
Defined.


(** ** What [completion] and [create_checkout_session] can answer *)

Section Answers.
Context {PyFloat Image : Type} {model : ModelWrapper PyFloat Image}.

(** X8. [completion] answers 200 exactly when the upload, if there is
    one, decodes and the model returns; the body is then the model's
    response under ["response"]. In every other case it answers 500:
    it never answers anything but 200 or 500. *)
Theorem completion_answers_200_or_500
    (query : Query PyFloat) (image : option UploadFile) (api_key : string) :
  (status (respond (completion query image api_key)) = 200 <->
   exists image_data response,
     read_image image = Ok image_data /\
     get_response (completion_args query image_data) = Ok response /\
     respond (completion query image api_key)
     = {| status := 200;
          content := JDict [("response", JString response)] |}) /\
  (status (respond (completion query image api_key)) <> 200 ->
   status (respond (completion query image api_key)) = 500).
Proof.
  unfold completion, completion_try.
  destruct (read_image image) as [image_data|e] eqn:R; simpl.
  - destruct (get_response (completion_args query image_data)) as [response|e] eqn:G;
      simpl.
    + split; [|congruence]. split; [|reflexivity].
      intros _. exists image_data, response. rewrite G. auto.
    + split; [|reflexivity]. split; [discriminate|].
      intros (d & r & Hd & Hg & _). congruence.
  - split; [|reflexivity]. split; [discriminate|].
    intros (d & r & Hd & _). discriminate.
Qed.
End Answers.

Section CheckoutAnswers.
Context {Usage : Type} {billing : Billing Usage}.

(** X9. [create_checkout_session] answers 200 exactly when both helper
    calls return, whether or not the payment provider then raises; an
    exception of [get_usage_from_database] or [calculate_cost] is not
    caught and is answered 500. *)
Theorem create_checkout_session_status (user_id : string) :
  (status (respond (create_checkout_session user_id)) = 200 <->
   exists usage cost,
     get_usage_from_database user_id = Ok usage /\
     calculate_cost usage = Ok cost) /\
  (forall e, get_usage_from_database user_id = Err e ->
     create_checkout_session user_id = Raise (Uncaught e) /\
     status (respond (create_checkout_session user_id)) = 500) /\
  (forall usage e,
     get_usage_from_database user_id = Ok usage ->
     calculate_cost usage = Err e ->
     create_checkout_session user_id = Raise (Uncaught e) /\
     status (respond (create_checkout_session user_id)) = 500).
Proof.
  unfold create_checkout_session.
  destruct (get_usage_from_database user_id) as [usage|e] eqn:U.
  - destruct (calculate_cost usage) as [cost|e] eqn:C.
    + split; [|split].
      * split; [intros _; exists usage, cost; auto|].
        intros _. destruct (Session_create (checkout_params cost)); reflexivity.
      * intros e He. discriminate.
      * intros usage' e Hu Hc. congruence.
    + split; [|split].
      * split; [discriminate|]. intros (u' & c' & Hu & Hc). congruence.
      * intros e' He. discriminate.
      * intros usage' e' Hu Hc. inversion Hu; subst.
        rewrite C in Hc. inversion Hc; subst. auto.
  - split; [|split].
    + split; [discriminate|]. intros (u' & c' & Hu & _). discriminate.
    + intros e' He. inversion He; subst. auto.
    + intros usage e' Hu. discriminate.
Qed.
End CheckoutAnswers.

Lemma create_checkout_session_status_witness :
  @create_checkout_session nat billing_down "u1"
  = Raise (Uncaught (mkException "usage table unreachable")) /\
  status (respond (@create_checkout_session nat toy_billing "")) = 200.
Proof.
  destruct (@create_checkout_session_status nat billing_down "u1")
    as (_ & Hdown & _).
  destruct (@create_checkout_session_status nat toy_billing "")
    as ((_ & Hok) & _).
  split.
  - apply (Hdown (mkException "usage table unreachable")). reflexivity.
  - apply Hok. exists 0, 0. split; reflexivity.
Defined.

Lemma completion_answers_200_or_500_witness :
  status (respond (completion (ask (Some "hi")) (Some {| read := "png" |}) "key-alice"))
  = 200 /\
  status (respond (completion (ask (Some "hi")) (Some {| read := "" |}) "key-alice"))
  = 500.
Proof.
  destruct (@completion_answers_200_or_500 nat nat toy_model
              (ask (Some "hi")) (Some {| read := "png" |}) "key-alice")
    as ((_ & Hok) & _).
  destruct (@completion_answers_200_or_500 nat nat toy_model
              (ask (Some "hi")) (Some {| read := "" |}) "key-alice")
    as (_ & Hbad).
  split.
  - apply Hok. exists (Some 3), "echo: hi". repeat split.
  - apply Hbad. discriminate.
Defined.

(** ** The [/completion] route over a run *)

Section RouteRuns.
Context {PyFloat Image : Type} {model : ModelWrapper PyFloat Image}.

Lemma post_completion_unauthenticated (req : Request PyFloat) (srv : Server) :
  unauthenticated srv req ->
  status (fst (post_completion req srv)) = 403 /\
  snd (post_completion req srv) = srv.
Proof.
  unfold unauthenticated. destruct (x_api_key req) as [key|] eqn:K; intro H.
  - rewrite (post_completion_rejected req srv key "Invalid API Key" K).
    + split; reflexivity.
    + apply get_api_key_not_found, eq_filter_absent, H.
  - unfold post_completion, bind, api_key_header. rewrite K. simpl.
    destruct srv; split; reflexivity.
Qed.


(** X10. Requests that do not authenticate leave no trace: a run of them
    is answered 403 throughout and leaves the server, the limiter's
    memory included, exactly as it was, so they never use up the
    address's allowance. *)
Theorem unauthenticated_run_leaves_server
    (reqs : list (Request PyFloat)) (srv : Server) :
  (forall req, In req reqs -> unauthenticated srv req) ->
  Forall (fun resp => status resp = 403) (fst (serve reqs srv)) /\
  snd (serve reqs srv) = srv.
Proof.
  induction reqs as [|req rest IH]; intro H; [split; [constructor|reflexivity]|].
  rewrite serve_cons. cbn [fst snd].
  destruct (post_completion_unauthenticated req srv) as [H403 Hsrv];
    [apply H; now left|].
  rewrite Hsrv. destruct IH as [IHr IHs]; [intros q Hq; apply H; now right|].
  split; [constructor; assumption|exact IHs].
Qed.


Lemma handled_before_none (a : string) (now : nat)
    (reqs : list (Request PyFloat)) (resps : list Response) :
  (forall q, In q reqs -> client_host q <> a \/ arrival q + 60 <= now) ->
  handled_before a now (combine reqs resps) = [].
Proof.
  revert resps; induction reqs as [|q rest IH]; intros resps H; [reflexivity|].
  destruct resps as [|r resps]; [reflexivity|].
  unfold handled_before. cbn [combine filter fst snd].
  fold (handled_before a now (combine rest resps)).
  rewrite IH by (intros q' Hq'; apply H; now right).
  destruct (H q (or_introl eq_refl)) as [Hne|Hold].
  - apply String.eqb_neq in Hne. now rewrite Hne.
  - assert (W : (now <? arrival q + 60) = false) by (apply Nat.ltb_ge; exact Hold).
    rewrite W, Bool.andb_false_r. reflexivity.
Qed.

(** X12. The limiter never holds back a client that is under the limit:
    starting with an empty memory, after any run, an authenticated
    request gets the answer of [completion] itself as long as fewer than 5
    requests of the run from its own address, arrived less than 60
    seconds before it, got to [completion]. In particular the requests of
    other addresses, and those that arrived 60 seconds or more before, do
    not count against it. *)
Theorem under_the_limit_served
    (reqs : list (Request PyFloat)) (srv : Server)
    (req : Request PyFloat) (key : string) :
  hits srv = [] ->
  x_api_key req = Some key ->
  get_api_key key (store srv) = (Return key, store srv) ->
  let run := combine reqs (fst (serve reqs srv)) in
  let srv' := snd (serve reqs srv) in
  (length (handled_before (client_host req) (arrival req) run) < 5 ->
   fst (post_completion req srv')
   = respond (completion (query req) (image req) key)) /\
  ((forall q, In q reqs ->
      client_host q <> client_host req \/ arrival q + 60 <= arrival req) ->
   fst (post_completion req srv')
   = respond (completion (query req) (image req) key)).
Proof.
  intros Hempty Hk Hg run srv'.
  assert (Hserved : length (handled_before (client_host req) (arrival req) run) < 5 ->
                    fst (post_completion req srv')
                    = respond (completion (query req) (image req) key)).
  { intro Hfew.
    assert (Hg' : get_api_key key (store srv') = (Return key, store srv')).
    { unfold srv'. rewrite serve_store. exact Hg. }
    rewrite (post_completion_accepted req srv' key Hk Hg'). unfold limit.
    assert (W : (window_count 60 (client_host req) (arrival req) (hits srv') <? 5)
                = true).
    { apply Nat.ltb_lt. unfold srv'. rewrite serve_window_count, Hempty.
      fold run. unfold window_count. simpl. lia. }
    rewrite W. reflexivity. }
  split; [exact Hserved|].
  intro Hother. apply Hserved. unfold run.
  rewrite (handled_before_none _ _ _ _ Hother). simpl. lia.
Qed.
End RouteRuns.

Lemma unauthenticated_run_leaves_server_witness :
  (forall req, In req six_unknown -> unauthenticated fresh_server req) /\
  snd (serve six_unknown fresh_server) = fresh_server.
Proof.
  assert (H : forall req, In req six_unknown -> unauthenticated fresh_server req).
  { intros req Hin. unfold six_unknown in Hin. apply in_map_iff in Hin.
    destruct Hin as (t & <- & _). vm_compute. intuition discriminate. }
  split; [exact H|].
  apply (@unauthenticated_run_leaves_server nat nat toy_model
           six_unknown fresh_server H).
Defined.

Lemma under_the_limit_served_witness :
  hits fresh_server = [] /\
  map status (fst (serve mixed_run fresh_server))
  = [200; 200; 200; 200; 200; 200; 200; 200; 200; 200; 429] /\
  status (fst (post_completion after_a_minute (snd (serve mixed_run fresh_server))))
  = 200.
Proof.
  split; [reflexivity|]. split; [reflexivity|].
  destruct (@under_the_limit_served nat nat toy_model mixed_run fresh_server
              after_a_minute "key-alice" eq_refl eq_refl eq_refl) as [Hfew _].
  rewrite Hfew; [reflexivity|]. vm_compute. lia.
Defined.
